(** * express-jobly: the SQL clause builders and the model layer

    A shallow embedding of [helpers/sql.js] ([sqlForPartialUpdate]),
    [models/company.js] and [models/job.js], and the properties of the
    partial-update builder, of the filter-clause assemblers and of the
    [get] / [update] operations built on them. *)

From Stdlib Require Import ZArith Ascii String List Lia.
From stdpp Require Import base option list strings pretty gmap.

Local Open Scope Z_scope.

(** ** JavaScript values *)

(** The values that travel through the model layer.  Numbers are modelled
    as integers, which is what the filters, ids and counts carry.  A plain
    object, such as a row of a query result or the data of an update, is the
    list of its own properties in iteration order (the order of
    [Object.keys] and [Object.values]). *)
#[warnings="-register-all"]
Inductive jsval : Type :=
  | JUndefined
  | JNull
  | JBool (b : bool)
  | JNum (z : Z)
  | JStr (s : string)
  | JArr (items : list jsval)
  | JObj (props : list (string * jsval)).

Abbreviation row := (list (string * jsval)).

(** ToBoolean: what [if (x)], [x && y], [x || y] and [!x] test. *)
Definition truthy (v : jsval) : bool :=
  match v with
  | JUndefined | JNull => false
  | JBool b => b
  | JNum z => negb (z =? 0)
  | JStr s => negb (String.eqb s EmptyString)
  | JArr _ | JObj _ => true
  end.

(** An optional argument that was left out is [undefined]. *)
Definition js_opt {A} (inj : A -> jsval) (o : option A) : jsval :=
  match o with Some a => inj a | None => JUndefined end.

(** [a > b] on optional numbers: [undefined] converts to NaN, and every
    comparison with NaN is false. *)
Definition js_gt (a b : option Z) : bool :=
  match a, b with
  | Some x, Some y => y <? x
  | _, _ => false
  end.

(** [Array.prototype.join]. *)
Fixpoint join (sep : string) (l : list string) : string :=
  match l with
  | [] => EmptyString
  | [s] => s
  | s :: rest => s +:+ sep +:+ join sep rest
  end.

(** ToString, as a template literal applies it. *)
Fixpoint js_to_string (v : jsval) : string :=
  match v with
  | JUndefined => "undefined"
  | JNull => "null"
  | JBool true => "true"
  | JBool false => "false"
  | JNum z => pretty z
  | JStr s => s
  | JArr items =>
      join ","
        (map (fun x => match x with
                       | JUndefined | JNull => EmptyString
                       | _ => js_to_string x
                       end) items)
  | JObj _ => "[object Object]"
  end.

(** [o[k]] on a plain object: [undefined] when [k] is not a property. *)
Fixpoint obj_get (k : string) (o : row) : jsval :=
  match o with
  | [] => JUndefined
  | (k', v) :: rest => if String.eqb k k' then v else obj_get k rest
  end.

(** [o[k] = v]: an existing property keeps its place, a new one goes last. *)
Fixpoint obj_set (k : string) (v : jsval) (o : row) : row :=
  match o with
  | [] => [(k, v)]
  | (k', v') :: rest =>
      if String.eqb k k' then (k', v) :: rest else (k', v') :: obj_set k v rest
  end.

(** [s.slice(0, -n)]. *)
Definition slice_0_neg (n : nat) (s : string) : string :=
  substring 0 (String.length s - n) s.

Definition dq : string := String "034" EmptyString.
Definition nl : string := String "010" EmptyString.

(** The text of a positional parameter, [$n]. *)
Definition placeholder (n : nat) : string := "$" +:+ pretty n.

(** ** Errors *)

(** The error classes of [expressError.js] that the model layer throws,
    the [TypeError] the runtime raises on a property read of [undefined],
    and a rejected query. *)
Inductive error : Type :=
  | BadRequestError (message : string)
  | NotFoundError (message : string)
  | TypeError (message : string)
  | DbError (message : string).

(** ** helpers/sql.js *)

Record partial_update : Type := PartialUpdate {
  setCols : string;
  values : list jsval
}.

(** The name table is an object literal, so a read of a name it does not
    hold goes on to [Object.prototype].  These are the properties found
    there, each with the text a template literal gives for its value: the
    built-in functions print as native code, and [__proto__] reads the
    prototype object itself. *)
Definition Object_prototype : list (string * string) :=
  [ ("constructor", "function Object() { [native code] }");
    ("__defineGetter__", "function __defineGetter__() { [native code] }");
    ("__defineSetter__", "function __defineSetter__() { [native code] }");
    ("hasOwnProperty", "function hasOwnProperty() { [native code] }");
    ("__lookupGetter__", "function __lookupGetter__() { [native code] }");
    ("__lookupSetter__", "function __lookupSetter__() { [native code] }");
    ("isPrototypeOf", "function isPrototypeOf() { [native code] }");
    ("propertyIsEnumerable", "function propertyIsEnumerable() { [native code] }");
    ("toString", "function toString() { [native code] }");
    ("valueOf", "function valueOf() { [native code] }");
    ("__proto__", "[object Object]");
    ("toLocaleString", "function toLocaleString() { [native code] }") ].

Fixpoint inherited_from (proto : list (string * string)) (k : string)
  : option string :=
  match proto with
  | [] => None
  | (k', text) :: rest => if String.eqb k k' then Some text else inherited_from rest k
  end.

(** [jsToSql[colName] || colName].  An own entry is read first, and an
    empty name there is falsy, so the key stands in for it.  With no own
    entry the read falls through to [Object.prototype]: what is found there
    is a function or an object, hence truthy, and its text becomes the
    column.  Only a name found in neither place reads as [undefined] and
    leaves the key. *)
Definition column_name (jsToSql : gmap string string) (colName : string) : string :=
  match jsToSql !! colName with
  | Some sqlName => if truthy (JStr sqlName) then sqlName else colName
  | None =>
      match inherited_from Object_prototype colName with
      | Some text => text
      | None => colName
      end
  end.

(** The [cols] array: one fragment per key, numbered from 1. *)
Definition cols (dataToUpdate : row) (jsToSql : gmap string string) : list string :=
  imap (fun idx colName =>
          dq +:+ column_name jsToSql colName +:+ dq +:+ "=" +:+ placeholder (idx + 1))
       (dataToUpdate.*1).

Definition sqlForPartialUpdate (dataToUpdate : row) (jsToSql : gmap string string)
  : error + partial_update :=
  let keys := dataToUpdate.*1 in
  if (length keys =? 0)%nat then inl (BadRequestError "No data")
  else inr {| setCols := join ", " (cols dataToUpdate jsToSql);
              values := dataToUpdate.*2 |}.

(** ** The storage boundary *)

(** [db.query(sql, params)] against a store of type [DB]: it resolves to
    the rows of the result or is rejected, and may change the store. *)
Class Storage (DB : Type) : Type :=
  exec : string -> list jsval -> DB -> (error + list row) * DB.

(** A model operation runs against the store and leaves a log of the
    statements it sent, oldest first. *)
Record world (DB : Type) : Type := World {
  store : DB;
  queries : list (string * list jsval)
}.
Arguments World {DB} _ _.
Arguments store {DB} _.
Arguments queries {DB} _.

Definition M (DB A : Type) : Type := world DB -> (error + A) * world DB.

Definition ret {DB A} (a : A) : M DB A := fun w => (inr a, w).

Definition throw {DB A} (e : error) : M DB A := fun w => (inl e, w).

Definition bind {DB A B} (m : M DB A) (k : A -> M DB B) : M DB B :=
  fun w =>
    match m w with
    | (inl e, w') => (inl e, w')
    | (inr a, w') => k a w'
    end.

Notation "x <- m ;; k" := (bind m (fun x => k))
  (at level 100, m at next level, right associativity).

Definition db_query {DB} `{Storage DB} (sql : string) (params : list jsval)
  : M DB (list row) :=
  fun w =>
    let '(res, s') := exec sql params (store w) in
    (res, World s' (queries w ++ [(sql, params)])).

(** A store that answers from a script, one canned result per query; used
    to run the operations on concrete inputs. *)
#[export] Instance scripted : Storage (list (error + list row)) :=
  fun _ _ script =>
    match script with
    | [] => (inr [], [])
    | answer :: rest => (answer, rest)
    end.

(** ** The filter clause as the specification describes it *)

(** A predicate of a filter clause: either it compares a column with a
    positional parameter, written between [before] and [after] and bound
    to [value], or it is a fixed comparison that takes no parameter. *)
Inductive predicate : Type :=
  | Parameterized (before after : string) (value : jsval)
  | Literal (text : string).

(** A filter that is switched off contributes nothing. *)
Definition when (active : bool) (p : predicate) : list predicate :=
  if active then [p] else [].

(** Rendering with one running counter shared by all predicates: the
    fragments in order, and the values of the parameterized ones in order. *)
Fixpoint render (next : nat) (ps : list predicate) : list string * list jsval :=
  match ps with
  | [] => ([], [])
  | Parameterized before after value :: rest =>
      let '(fragments, vals) := render (S next) rest in
      ((before +:+ placeholder next +:+ after) :: fragments, value :: vals)
  | Literal text :: rest =>
      let '(fragments, vals) := render next rest in
      (text :: fragments, vals)
  end.

(** The number of parameterized predicates in a list. *)
Fixpoint parameters (ps : list predicate) : nat :=
  match ps with
  | [] => 0
  | Parameterized _ _ _ :: rest => S (parameters rest)
  | Literal _ :: rest => parameters rest
  end.

(** The fragments conjoined, with the keyword only when there is one. *)
Definition where_clause (fragments : list string) : string :=
  match fragments with
  | [] => EmptyString
  | _ => "WHERE " +:+ join " AND " fragments
  end.

(** [s.endsWith(suffix)]. *)
Definition ends_with (suffix s : string) : bool :=
  (String.length suffix <=? String.length s)%nat
  && String.eqb
       (substring (String.length s - String.length suffix) (String.length suffix) s)
       suffix.

(** ** models/company.js *)

Module Company.

Record filters : Type := Filters {
  name : option string;
  minEmployees : option Z;
  maxEmployees : option Z
}.

(** The guard of line 58. *)
Definition bounds_conflict (f : filters) : bool :=
  truthy (js_opt JNum (minEmployees f))
  && truthy (js_opt JNum (maxEmployees f))
  && js_gt (minEmployees f) (maxEmployees f).

(** Lines 62-90: [filterClause] and [values] as the three [if]s and the
    final [slice] leave them. *)
Definition filter_clause (f : filters) : string * list jsval :=
  let filterClause := EmptyString in
  let values : list jsval := [] in
  let '(filterClause, values) :=
    match name f with
    | Some n =>
        if truthy (JStr n) then
          let values := values ++ [JStr ("%" +:+ n +:+ "%")] in
          (filterClause +:+ "LOWER(name) LIKE LOWER(" +:+ placeholder (length values) +:+ ") AND ",
           values)
        else (filterClause, values)
    | None => (filterClause, values)
    end in
  let '(filterClause, values) :=
    match minEmployees f with
    | Some mn =>
        if truthy (JNum mn) then
          let values := values ++ [JNum mn] in
          (filterClause +:+ "num_employees >= " +:+ placeholder (length values) +:+ " AND ",
           values)
        else (filterClause, values)
    | None => (filterClause, values)
    end in
  let '(filterClause, values) :=
    match maxEmployees f with
    | Some mx =>
        if truthy (JNum mx) then
          let values := values ++ [JNum mx] in
          (filterClause +:+ "num_employees <= " +:+ placeholder (length values) +:+ " AND ",
           values)
        else (filterClause, values)
    | None => (filterClause, values)
    end in
  let filterClause :=
    if (0 <? String.length filterClause)%nat
    then "WHERE " +:+ slice_0_neg 5 filterClause
    else filterClause in
  (filterClause, values).

Definition findAll_sql (filterClause : string) : string :=
  "SELECT handle," +:+ nl +:+
  "                  name," +:+ nl +:+
  "                  description," +:+ nl +:+
  "                  num_employees AS " +:+ dq +:+ "numEmployees" +:+ dq +:+ "," +:+ nl +:+
  "                  logo_url AS " +:+ dq +:+ "logoUrl" +:+ dq +:+ nl +:+
  "           FROM companies" +:+ nl +:+
  "           " +:+ filterClause +:+ nl +:+
  "           ORDER BY name".

Definition get_sql : string :=
  "SELECT handle," +:+ nl +:+
  "              name," +:+ nl +:+
  "              description," +:+ nl +:+
  "              num_employees AS " +:+ dq +:+ "numEmployees" +:+ dq +:+ "," +:+ nl +:+
  "              logo_url AS " +:+ dq +:+ "logoUrl" +:+ dq +:+ nl +:+
  "        FROM companies" +:+ nl +:+
  "        WHERE handle = $1".

Definition get_jobs_sql : string :=
  "SELECT id," +:+ nl +:+
  "              title," +:+ nl +:+
  "              salary," +:+ nl +:+
  "              equity" +:+ nl +:+
  "       FROM jobs" +:+ nl +:+
  "       WHERE company_handle = $1".

Definition update_sql (setCols handleVarIdx : string) : string :=
  "UPDATE companies " +:+ nl +:+
  "                      SET " +:+ setCols +:+ " " +:+ nl +:+
  "                      WHERE handle = " +:+ handleVarIdx +:+ " " +:+ nl +:+
  "                      RETURNING handle, " +:+ nl +:+
  "                                name, " +:+ nl +:+
  "                                description, " +:+ nl +:+
  "                                num_employees AS " +:+ dq +:+ "numEmployees" +:+ dq +:+ ", " +:+ nl +:+
  "                                logo_url AS " +:+ dq +:+ "logoUrl" +:+ dq.

Definition jsToSql : gmap string string :=
  {[ "numEmployees" := "num_employees"; "logoUrl" := "logo_url" ]}.

Definition create_check_sql : string :=
  "SELECT handle" +:+ nl +:+
  "           FROM companies" +:+ nl +:+
  "           WHERE handle = $1".

Definition create_sql : string :=
  "INSERT INTO companies" +:+ nl +:+
  "           (handle, name, description, num_employees, logo_url)" +:+ nl +:+
  "           VALUES ($1, $2, $3, $4, $5)" +:+ nl +:+
  "           RETURNING handle, name, description, num_employees AS " +:+ dq +:+ "numEmployees" +:+ dq +:+ ", logo_url AS " +:+ dq +:+ "logoUrl" +:+ dq.

Definition remove_sql : string :=
  "DELETE" +:+ nl +:+
  "           FROM companies" +:+ nl +:+
  "           WHERE handle = $1" +:+ nl +:+
  "           RETURNING handle".

Section Operations.
Context {DB : Type} `{Storage DB}.

Definition findAll (f : filters) : M DB (list row) :=
  if bounds_conflict f then
    throw (BadRequestError
      "The minimum number of employees cannot be greater than the maximum number of employees")
  else
    let '(filterClause, values) := filter_clause f in
    companiesRes <- db_query (findAll_sql filterClause) values ;;
    ret companiesRes.

Definition get (handle : jsval) : M DB row :=
  companyRes <- db_query get_sql [handle] ;;
  match head companyRes with
  | None => throw (NotFoundError ("No company: " +:+ js_to_string handle))
  | Some company =>
      jobsRes <- db_query get_jobs_sql [handle] ;;
      ret (obj_set "jobs" (JArr (map JObj jobsRes)) company)
  end.

Definition update (handle : jsval) (data : row) : M DB row :=
  match sqlForPartialUpdate data jsToSql with
  | inl e => throw e
  | inr u =>
      let handleVarIdx := placeholder (length (values u) + 1) in
      let querySql := update_sql (setCols u) handleVarIdx in
      result <- db_query querySql (values u ++ [handle]) ;;
      match head result with
      | None => throw (NotFoundError ("No company: " +:+ js_to_string handle))
      | Some company => ret company
      end
  end.
(** [create] destructures its argument; [company] is [rows[0]] of the
    INSERT, [undefined] when it returned no row. *)
Definition create (data : row) : M DB (option row) :=
  let handle := obj_get "handle" data in
  let name := obj_get "name" data in
  let description := obj_get "description" data in
  let numEmployees := obj_get "numEmployees" data in
  let logoUrl := obj_get "logoUrl" data in
  duplicateCheck <- db_query create_check_sql [handle] ;;
  match head duplicateCheck with
  | Some _ =>
      throw (BadRequestError ("Duplicate company: " +:+ js_to_string handle))
  | None =>
      result <- db_query create_sql
                  [handle; name; description; numEmployees; logoUrl] ;;
      ret (head result)
  end.

Definition remove (handle : jsval) : M DB unit :=
  result <- db_query remove_sql [handle] ;;
  match head result with
  | None => throw (NotFoundError ("No company: " +:+ js_to_string handle))
  | Some _ => ret tt
  end.
End Operations.

(** The specification's reading of the company filters: text match, then
    lower bound, then upper bound, each only when its value is truthy. *)
Definition spec_predicates (f : filters) : list predicate :=
  when (truthy (js_opt JStr (name f)))
       (Parameterized "LOWER(name) LIKE LOWER(" ")"
          (JStr ("%" +:+ default EmptyString (name f) +:+ "%")))
  ++ when (truthy (js_opt JNum (minEmployees f)))
       (Parameterized "num_employees >= " EmptyString (js_opt JNum (minEmployees f)))
  ++ when (truthy (js_opt JNum (maxEmployees f)))
       (Parameterized "num_employees <= " EmptyString (js_opt JNum (maxEmployees f))).

End Company.

(** ** models/job.js *)

Module Job.

Record filters : Type := Filters {
  title : option string;
  minSalary : option Z;
  hasEquity : jsval
}.

(** Lines 50-76. *)
Definition filter_clause (f : filters) : string * list jsval :=
  let filterClause := EmptyString in
  let values : list jsval := [] in
  let '(filterClause, values) :=
    match title f with
    | Some t =>
        if truthy (JStr t) then
          let values := values ++ [JStr ("%" +:+ t +:+ "%")] in
          (filterClause +:+ "LOWER(title) LIKE LOWER(" +:+ placeholder (length values) +:+ ") AND ",
           values)
        else (filterClause, values)
    | None => (filterClause, values)
    end in
  let '(filterClause, values) :=
    match minSalary f with
    | Some mn =>
        if truthy (JNum mn) then
          let values := values ++ [JNum mn] in
          (filterClause +:+ "salary >= " +:+ placeholder (length values) +:+ " AND ",
           values)
        else (filterClause, values)
    | None => (filterClause, values)
    end in
  let filterClause :=
    if truthy (hasEquity f)
    then filterClause +:+ "equity > 0 AND "
    else filterClause in
  let filterClause :=
    if (0 <? String.length filterClause)%nat
    then "WHERE " +:+ slice_0_neg 5 filterClause
    else filterClause in
  (filterClause, values).

Definition findAll_sql (filterClause : string) : string :=
  "SELECT title," +:+ nl +:+
  "                  salary," +:+ nl +:+
  "                  equity," +:+ nl +:+
  "                  company_handle AS " +:+ dq +:+ "companyHandle" +:+ dq +:+ nl +:+
  "           FROM jobs" +:+ nl +:+
  "           " +:+ filterClause +:+ nl +:+
  "           ORDER BY title".

Definition get_sql : string :=
  "SELECT id," +:+ nl +:+
  "                  title," +:+ nl +:+
  "                  salary," +:+ nl +:+
  "                  equity," +:+ nl +:+
  "                  company_handle AS " +:+ dq +:+ "companyHandle" +:+ dq +:+ nl +:+
  "           FROM jobs" +:+ nl +:+
  "           WHERE id = $1".

Definition get_company_sql : string :=
  "SELECT handle," +:+ nl +:+
  "                name," +:+ nl +:+
  "                description," +:+ nl +:+
  "                num_employees AS " +:+ dq +:+ "numEmployees" +:+ dq +:+ "," +:+ nl +:+
  "                logo_url AS " +:+ dq +:+ "logoUrl" +:+ dq +:+ nl +:+
  "         FROM companies" +:+ nl +:+
  "         WHERE handle = $1".

Definition update_sql (setCols idVarIdx : string) : string :=
  "UPDATE jobs " +:+ nl +:+
  "                      SET " +:+ setCols +:+ " " +:+ nl +:+
  "                      WHERE id = " +:+ idVarIdx +:+ " " +:+ nl +:+
  "                      RETURNING id, " +:+ nl +:+
  "                                title, " +:+ nl +:+
  "                                salary," +:+ nl +:+
  "                                equity, " +:+ nl +:+
  "                                company_handle AS " +:+ dq +:+ "companyHandle" +:+ dq.

Definition create_sql : string :=
  "INSERT INTO jobs" +:+ nl +:+
  "           (title, salary, equity, company_handle)" +:+ nl +:+
  "           VALUES ($1, $2, $3, $4)" +:+ nl +:+
  "           RETURNING id, title, salary, equity, company_handle AS " +:+ dq +:+ "companyHandle" +:+ dq.

Definition remove_sql : string :=
  "DELETE" +:+ nl +:+
  "           FROM jobs" +:+ nl +:+
  "           WHERE id = $1" +:+ nl +:+
  "           RETURNING id".

Section Operations.
Context {DB : Type} `{Storage DB}.

Definition findAll (f : filters) : M DB (list row) :=
  let '(filterClause, values) := filter_clause f in
  jobsRes <- db_query (findAll_sql filterClause) values ;;
  ret jobsRes.

Definition get (id : jsval) : M DB row :=
  jobRes <- db_query get_sql [id] ;;
  match head jobRes with
  | None => throw (NotFoundError ("No job: " +:+ js_to_string id))
  | Some job =>
      companyRes <- db_query get_company_sql [obj_get "companyHandle" job] ;;
      match head companyRes with
      | None =>
          throw (TypeError "Cannot read properties of undefined (reading 'handle')")
      | Some company =>
          ret (obj_set "companyHandle" (obj_get "handle" company) job)
      end
  end.

Definition update (id : jsval) (data : row) : M DB row :=
  match sqlForPartialUpdate data ∅ with
  | inl e => throw e
  | inr u =>
      let idVarIdx := placeholder (length (values u) + 1) in
      let querySql := update_sql (setCols u) idVarIdx in
      result <- db_query querySql (values u ++ [id]) ;;
      match head result with
      | None => throw (NotFoundError ("No job: " +:+ js_to_string id))
      | Some job => ret job
      end
  end.
Definition create (data : row) : M DB (option row) :=
  let title := obj_get "title" data in
  let salary := obj_get "salary" data in
  let equity := obj_get "equity" data in
  let companyHandle := obj_get "companyHandle" data in
  result <- db_query create_sql [title; salary; equity; companyHandle] ;;
  ret (head result).

Definition remove (id : jsval) : M DB unit :=
  result <- db_query remove_sql [id] ;;
  match head result with
  | None => throw (NotFoundError ("No job: " +:+ js_to_string id))
  | Some _ => ret tt
  end.
End Operations.

(** The specification's reading of the job filters: text match, then
    lower bound, then the presence flag, each only when truthy. *)
Definition spec_predicates (f : filters) : list predicate :=
  when (truthy (js_opt JStr (title f)))
       (Parameterized "LOWER(title) LIKE LOWER(" ")"
          (JStr ("%" +:+ default EmptyString (title f) +:+ "%")))
  ++ when (truthy (js_opt JNum (minSalary f)))
       (Parameterized "salary >= " EmptyString (js_opt JNum (minSalary f)))
  ++ when (truthy (hasEquity f)) (Literal "equity > 0").

End Job.

(** * Properties *)

(** ** Strings and arrays *)

Lemma substring_prefix (s t : string) :
  substring 0 (String.length s) (s +:+ t) = s.
Proof.
  induction s as [|a s IH]; simpl.
  - by destruct t.
  - by rewrite IH.
Qed.

Lemma string_length_app (s t : string) :
  String.length (s +:+ t) = (String.length s + String.length t)%nat.
Proof. induction s as [|a s IH]; simpl; [done | by rewrite IH]. Qed.

(** Cutting a five-character tail off gives back what was before it. *)
Lemma slice_strips_connective (s : string) :
  slice_0_neg 5 (s +:+ " AND ") = s.
Proof.
  unfold slice_0_neg. rewrite string_length_app. simpl.
  replace (String.length s + 5 - 5)%nat with (String.length s) by lia.
  apply substring_prefix.
Qed.

Lemma length_cols (data : row) (m : gmap string string) :
  length (cols data m) = length data.
Proof. unfold cols. by rewrite length_imap, length_fmap. Qed.

Lemma cols_lookup (data : row) (m : gmap string string) (i : nat) (k : string) (v : jsval) :
  data !! i = Some (k, v) ->
  cols data m !! i
  = Some (dq +:+ column_name m k +:+ dq +:+ "=" +:+ placeholder (S i)).
Proof.
  intros Hi. unfold cols.
  rewrite list_lookup_imap, list_lookup_fmap, Hi. simpl.
  by replace (i + 1)%nat with (S i) by lia.
Qed.

Lemma sqlForPartialUpdate_nonempty (data : row) (m : gmap string string) :
  data <> [] ->
  sqlForPartialUpdate data m
  = inr {| setCols := join ", " (cols data m); values := data.*2 |}.
Proof. intros Hne. unfold sqlForPartialUpdate. by destruct data. Qed.

(** ** The partial-update builder *)

(** C1. For a non-empty [dataToUpdate] and any [jsToSql], the builder
    returns a clause that is the [", "]-join of one fragment per key; the
    fragment of the key in position [i] (counted from 1) ends in the
    placeholder [$i], and the returned values are the object's values in the
    same order, so that placeholder [$i] stands for [values[i-1]]. *)
Theorem sqlForPartialUpdate_alignment (data : row) (m : gmap string string) :
  data <> [] ->
  exists u,
    sqlForPartialUpdate data m = inr u
    /\ setCols u = join ", " (cols data m)
    /\ length (cols data m) = length (data.*1)
    /\ values u = data.*2
    /\ length (values u) = length (data.*1)
    /\ forall (i : nat) (k : string) (v : jsval),
         data !! i = Some (k, v) ->
         cols data m !! i
         = Some (dq +:+ column_name m k +:+ dq +:+ "=" +:+ placeholder (S i))
         /\ values u !! i = Some v.
Proof.
  intros Hne. eexists. split; [by apply sqlForPartialUpdate_nonempty|].
  simpl. split; [reflexivity|]. split; [by rewrite length_cols, length_fmap|].
  split; [reflexivity|]. split; [by rewrite !length_fmap|].
  intros i k v Hi. split.
  - by eapply cols_lookup.
  - rewrite list_lookup_fmap. by rewrite Hi.
Qed.

Lemma sqlForPartialUpdate_alignment_witness :
  exists u,
    sqlForPartialUpdate
      [("name", JStr "Test name"); ("numEmployees", JNum 100)]
      {[ "numEmployees" := "num_employees" ]} = inr u
    /\ setCols u = dq +:+ "name" +:+ dq +:+ "=$1, " +:+ dq +:+ "num_employees" +:+ dq +:+ "=$2"
    /\ values u = [JStr "Test name"; JNum 100].
Proof.
  destruct (sqlForPartialUpdate_alignment
              [("name", JStr "Test name"); ("numEmployees", JNum 100)]
              {[ "numEmployees" := "num_employees" ]})
    as (u & Hu & Hset & _ & Hvals & _); [discriminate|].
  exists u. split; [exact Hu|]. split; [|exact Hvals].
  rewrite Hset. vm_compute. reflexivity.
Defined.

(** C2. With no key at all the builder fails with [BadRequestError]
    ("No data"), whatever the name table; with at least one key it never
    fails. *)
Theorem sqlForPartialUpdate_no_data (m : gmap string string) :
  sqlForPartialUpdate [] m = inl (BadRequestError "No data")
  /\ forall data : row,
       data <> [] ->
       exists u, sqlForPartialUpdate data m = inr u
                 /\ forall e, sqlForPartialUpdate data m <> inl e.
Proof.
  split; [reflexivity|].
  intros data Hne. rewrite (sqlForPartialUpdate_nonempty data m Hne).
  eexists. split; [reflexivity | discriminate].
Qed.

Lemma sqlForPartialUpdate_no_data_witness :
  exists u, sqlForPartialUpdate [("title", JStr "New")] ∅ = inr u
            /\ forall e, sqlForPartialUpdate [("title", JStr "New")] ∅ <> inl e.
Proof.
  apply (proj2 (sqlForPartialUpdate_no_data ∅) [("title", JStr "New")]).
  discriminate.
Defined.

(** How a key resolves, case by case: an own entry with a name gives the
    name, an empty own entry gives the key, a name inherited from
    [Object.prototype] gives the text of what is inherited, and a name
    found nowhere gives the key. *)
Lemma column_name_cases (m : gmap string string) (k : string) :
  (forall sqlName, m !! k = Some sqlName -> sqlName <> EmptyString ->
     column_name m k = sqlName)
  /\ (m !! k = Some EmptyString -> column_name m k = k)
  /\ (forall text, m !! k = None ->
        inherited_from Object_prototype k = Some text -> column_name m k = text)
  /\ (m !! k = None -> inherited_from Object_prototype k = None ->
      column_name m k = k).
Proof.
  unfold column_name. split; [|split; [|split]].
  - intros sqlName -> Hne. simpl. by destruct sqlName.
  - by intros ->.
  - by intros text -> ->.
  - by intros -> ->.
Qed.

(** C3 fails on the code for a key that names a property of
    [Object.prototype].  The key [constructor] has no entry in the empty
    name table, and the column that comes out is not the key but the text of
    the inherited [Object] function. *)
Theorem column_name_reads_prototype :
  (∅ : gmap string string) !! "constructor" = None
  /\ cols [("constructor", JStr "x")] ∅
     = [dq +:+ "function Object() { [native code] }" +:+ dq +:+ "=$1"]
  /\ sqlForPartialUpdate [("constructor", JStr "x")] ∅
     = inr {| setCols := dq +:+ "function Object() { [native code] }" +:+ dq +:+ "=$1";
              values := [JStr "x"] |}
  /\ cols [("constructor", JStr "x")] ∅
     <> [dq +:+ "constructor" +:+ dq +:+ "=$1"].
Proof.
  split; [reflexivity|]. split; [reflexivity|]. split; [reflexivity|].
  discriminate.
Qed.

(** ** The filter-clause assemblers *)

(** The running counter of [render]: fragments and values line up, whatever
    number the counter starts from. *)
Lemma render_aligned (ps : list predicate) :
  forall (next j : nat) (before after : string) (v : jsval),
    ps !! j = Some (Parameterized before after v) ->
    (render next ps).1 !! j
    = Some (before +:+ placeholder (next + parameters (take j ps)) +:+ after)
    /\ (render next ps).2 !! parameters (take j ps) = Some v.
Proof.
  induction ps as [|p ps IH]; intros next j before after v Hj; [done|].
  destruct j as [|j].
  - simpl in Hj. injection Hj as ->. simpl.
    destruct (render (S next) ps) as [fragments vals]. simpl.
    by replace (next + 0)%nat with next by lia.
  - simpl in Hj. destruct p as [b a w | text]; simpl.
    + specialize (IH (S next) j before after v Hj).
      destruct (render (S next) ps) as [fragments vals]. simpl in *.
      by replace (next + S (parameters (take j ps)))%nat
        with (S (next + parameters (take j ps))) by lia.
    + specialize (IH next j before after v Hj).
      by destruct (render next ps) as [fragments vals].
Qed.

Lemma render_literal (ps : list predicate) :
  forall (next j : nat) (text : string),
    ps !! j = Some (Literal text) ->
    (render next ps).1 !! j = Some text.
Proof.
  induction ps as [|p ps IH]; intros next j text Hj; [done|].
  destruct j as [|j].
  - simpl in Hj. injection Hj as ->. simpl.
    by destruct (render next ps) as [fragments vals].
  - simpl in Hj. destruct p as [b a w | t]; simpl.
    + specialize (IH (S next) j text Hj).
      by destruct (render (S next) ps) as [fragments vals].
    + specialize (IH next j text Hj).
      by destruct (render next ps) as [fragments vals].
Qed.

Lemma render_lengths (ps : list predicate) :
  forall next : nat,
    length (render next ps).1 = length ps
    /\ length (render next ps).2 = parameters ps.
Proof.
  induction ps as [|p ps IH]; intros next; [done|].
  destruct p as [b a w | t]; simpl.
  - destruct (IH (S next)) as [H1 H2].
    destruct (render (S next) ps) as [fragments vals]. simpl in *. lia.
  - destruct (IH next) as [H1 H2].
    destruct (render next ps) as [fragments vals]. simpl in *. lia.
Qed.

(** Case analysis on what a filter object holds: each optional field is
    absent, falsy or truthy. *)
Ltac filter_cases f :=
  destruct f as [text lower third]; unfold js_opt; simpl;
  repeat match goal with
    | o : option string |- _ => destruct o as [[|? ?]|]
    | o : option Z |- _ => destruct o as [[|?|?]|]
    end.

Lemma company_filter_clause_refines (f : Company.filters) :
  Company.filter_clause f
  = (where_clause (render 1 (Company.spec_predicates f)).1,
     (render 1 (Company.spec_predicates f)).2).
Proof. filter_cases f; reflexivity. Qed.

Lemma job_filter_clause_refines (f : Job.filters) :
  Job.filter_clause f
  = (where_clause (render 1 (Job.spec_predicates f)).1,
     (render 1 (Job.spec_predicates f)).2).
Proof.
  filter_cases f; unfold Job.filter_clause, Job.spec_predicates; simpl;
    destruct (truthy third); reflexivity.
Qed.

Lemma bind_ret {DB A} (m : M DB A) (w : world DB) :
  (x <- m ;; ret x) w = m w.
Proof. unfold bind, ret. by destruct (m w) as [[e|a] w']. Qed.

Lemma company_findAll_conflict {DB} `{Storage DB} (f : Company.filters) (w : world DB) :
  Company.bounds_conflict f = true ->
  Company.findAll f w
  = (inl (BadRequestError
       "The minimum number of employees cannot be greater than the maximum number of employees"),
     w).
Proof. intros Hc. unfold Company.findAll. by rewrite Hc. Qed.

Lemma company_findAll_query {DB} `{Storage DB} (f : Company.filters) (w : world DB) :
  Company.bounds_conflict f = false ->
  Company.findAll f w
  = db_query (Company.findAll_sql (Company.filter_clause f).1)
             (Company.filter_clause f).2 w.
Proof.
  intros Hc. unfold Company.findAll. rewrite Hc.
  destruct (Company.filter_clause f) as [clause vals]. apply bind_ret.
Qed.

Lemma job_findAll_query {DB} `{Storage DB} (f : Job.filters) (w : world DB) :
  Job.findAll f w
  = db_query (Job.findAll_sql (Job.filter_clause f).1) (Job.filter_clause f).2 w.
Proof.
  unfold Job.findAll.
  destruct (Job.filter_clause f) as [clause vals]. apply bind_ret.
Qed.

(** C4 fails on the code when a bound is 0.  With a lower bound of 5 and
    an upper bound of 0 both bounds are supplied and the lower one is the
    greater, yet the guard, which tests the bounds for truthiness, lets the
    listing through: the query goes to the store, with the lower bound as
    its only predicate. *)
Theorem bounds_check_skipped_at_zero {DB} `{Storage DB} (w : world DB) :
  Company.bounds_conflict (Company.Filters None (Some 5) (Some 0)) = false
  /\ Company.findAll (Company.Filters None (Some 5) (Some 0)) w
     = db_query (Company.findAll_sql "WHERE num_employees >= $1") [JNum 5] w
  /\ Company.findAll (Company.Filters None (Some 5) (Some 0))
       (World [inr [[("handle", JStr "c1")]]] [])
     <> (inl (BadRequestError
          "The minimum number of employees cannot be greater than the maximum number of employees"),
         World [inr [[("handle", JStr "c1")]]] []).
Proof.
  split; [reflexivity|]. split; [|discriminate].
  by rewrite company_findAll_query.
Qed.

(** X16. When both bounds are supplied and non-zero and the lower one is
    strictly greater, the listing fails with [BadRequestError] whatever the
    text filter is, and it does so first: nothing has been sent to the
    store.  The bounds 10 and 5 are such a case. *)
Theorem bounds_conflict_rejected {DB} `{Storage DB} (w : world DB) :
  (forall (f : Company.filters) (mn mx : Z),
      Company.minEmployees f = Some mn ->
      Company.maxEmployees f = Some mx ->
      mn <> 0 -> mx <> 0 -> mn > mx ->
      exists message,
        Company.findAll f w = (inl (BadRequestError message), w))
  /\ (forall text : option string,
        exists message,
          Company.findAll (Company.Filters text (Some 10) (Some 5)) w
          = (inl (BadRequestError message), w)).
Proof.
  split.
  - intros [text lower upper] mn mx Hmin Hmax Hmn Hmx Hgt. simpl in *. subst.
    eexists. apply company_findAll_conflict.
    unfold Company.bounds_conflict. simpl.
    apply andb_true_intro. split; [apply andb_true_intro; split|].
    + apply negb_true_iff. by apply Z.eqb_neq.
    + apply negb_true_iff. by apply Z.eqb_neq.
    + apply Z.ltb_lt. lia.
  - intros text. eexists. by apply company_findAll_conflict.
Qed.

Lemma bounds_conflict_rejected_witness :
  exists message,
    Company.findAll (Company.Filters (Some "net") (Some 10) (Some 5))
                    (World [inr [[("handle", JStr "c1")]]] [])
    = (inl (BadRequestError message), World [inr [[("handle", JStr "c1")]]] []).
Proof.
  apply (proj1 (bounds_conflict_rejected (World [inr [[("handle", JStr "c1")]]] []))
               (Company.Filters (Some "net") (Some 10) (Some 5)) 10 5);
    [reflexivity | reflexivity | lia | lia | lia].
Defined.

(** C5. Each assembler takes its filters in the fixed order (text match,
    lower bound, upper bound for companies; text match, lower bound,
    presence flag for jobs), numbers the placeholders with one counter in
    that order, and joins the active fragments with [" AND "], leaving no
    connective at the end.  A text match of ["a"] with a lower bound of 1
    gives two conjoined fragments, placeholders [$1] and [$2], and the
    values ["%a%"] and 1 in that order. *)
Theorem filter_clause_order :
  (forall f : Company.filters,
      Company.filter_clause f
      = (where_clause (render 1 (Company.spec_predicates f)).1,
         (render 1 (Company.spec_predicates f)).2)
      /\ ends_with " AND " (Company.filter_clause f).1 = false)
  /\ (forall f : Job.filters,
        Job.filter_clause f
        = (where_clause (render 1 (Job.spec_predicates f)).1,
           (render 1 (Job.spec_predicates f)).2)
        /\ ends_with " AND " (Job.filter_clause f).1 = false)
  /\ Company.filter_clause (Company.Filters (Some "a") (Some 1) None)
     = ("WHERE LOWER(name) LIKE LOWER($1) AND num_employees >= $2",
        [JStr "%a%"; JNum 1])
  /\ Job.filter_clause (Job.Filters (Some "a") (Some 1) JUndefined)
     = ("WHERE LOWER(title) LIKE LOWER($1) AND salary >= $2",
        [JStr "%a%"; JNum 1]).
Proof.
  split; [|split; [|split; reflexivity]].
  - intros f. split; [apply company_filter_clause_refines|].
    filter_cases f; reflexivity.
  - intros f. split; [apply job_filter_clause_refines|].
    filter_cases f; unfold Job.filter_clause; simpl;
      destruct (truthy third); reflexivity.
Qed.

(** C6. A truthy [hasEquity] adds the fixed fragment [equity > 0] as the
    last one and takes no placeholder: the values are those of the same
    filters without the flag.  Mixed with parameterized predicates or not,
    every parameterized fragment of the clause carries the placeholder whose
    number is its rank among the parameterized ones, and the value at that
    rank (less one) in the value list is its own. *)
Theorem presence_flag_keeps_alignment (f : Job.filters) :
  Job.filter_clause f
  = (where_clause (render 1 (Job.spec_predicates f)).1,
     (render 1 (Job.spec_predicates f)).2)
  /\ length (Job.filter_clause f).2 = parameters (Job.spec_predicates f)
  /\ (truthy (Job.hasEquity f) = true ->
        last (Job.spec_predicates f) = Some (Literal "equity > 0")
        /\ last (render 1 (Job.spec_predicates f)).1 = Some "equity > 0"
        /\ (Job.filter_clause f).2
           = (Job.filter_clause
                (Job.Filters (Job.title f) (Job.minSalary f) JUndefined)).2)
  /\ (forall (j : nat) (before after : string) (v : jsval),
        Job.spec_predicates f !! j = Some (Parameterized before after v) ->
        let i := S (parameters (take j (Job.spec_predicates f))) in
        (render 1 (Job.spec_predicates f)).1 !! j
        = Some (before +:+ placeholder i +:+ after)
        /\ (Job.filter_clause f).2 !! (i - 1)%nat = Some v).
Proof.
  pose proof (job_filter_clause_refines f) as Href.
  split; [exact Href|]. split; [|split].
  - rewrite Href. simpl. apply render_lengths.
  - intros Hflag. destruct f as [text lower flag]. simpl in Hflag.
    unfold Job.filter_clause, Job.spec_predicates. simpl. rewrite Hflag.
    unfold js_opt.
    destruct text as [[|? ?]|]; destruct lower as [[|?|?]|]; simpl;
      repeat split; reflexivity.
  - intros j before after v Hj i.
    destruct (render_aligned _ 1 j before after v Hj) as [Hfrag Hval].
    split; [exact Hfrag|].
    rewrite Href. simpl. subst i. simpl.
    by replace (parameters (take j (Job.spec_predicates f)) - 0)%nat
      with (parameters (take j (Job.spec_predicates f))) by lia.
Qed.

Lemma presence_flag_keeps_alignment_witness :
  Job.filter_clause (Job.Filters None (Some 200) (JBool true))
  = ("WHERE salary >= $1 AND equity > 0", [JNum 200])
  /\ (Job.filter_clause (Job.Filters None (Some 200) (JBool true))).2
     = (Job.filter_clause (Job.Filters None (Some 200) JUndefined)).2
  /\ (Job.filter_clause (Job.Filters None (Some 200) (JBool true))).2 !! 0%nat
     = Some (JNum 200).
Proof.
  destruct (presence_flag_keeps_alignment (Job.Filters None (Some 200) (JBool true)))
    as (Href & _ & Hflag & Haligned).
  split; [rewrite Href; reflexivity|]. split.
  - apply Hflag. reflexivity.
  - apply (Haligned 0%nat "salary >= " EmptyString (JNum 200)). reflexivity.
Defined.

Lemma zero_bound_no_conflict (f : Company.filters) :
  Company.minEmployees f = Some 0 \/ Company.maxEmployees f = Some 0 ->
  Company.bounds_conflict f = false.
Proof.
  destruct f as [text lower upper]. unfold Company.bounds_conflict. simpl.
  intros [-> | ->]; simpl; [reflexivity|].
  by destruct lower as [[|?|?]|].
Qed.

(** C9. A falsy filter value is as good as none: an empty text, a bound
    of 0 and a false flag leave clause and values as they are without them.
    When a bound of the company listing is 0 the consistency guard does not
    fire and the query is sent; with a lower bound of 5 and an upper bound of
    0 only the lower bound is in the clause, and with both bounds 0 the
    clause is empty. *)
Theorem falsy_filter_is_absent {DB} `{Storage DB} (w : world DB) :
  (forall lower upper,
      Company.filter_clause (Company.Filters (Some EmptyString) lower upper)
      = Company.filter_clause (Company.Filters None lower upper))
  /\ (forall text upper,
        Company.filter_clause (Company.Filters text (Some 0) upper)
        = Company.filter_clause (Company.Filters text None upper))
  /\ (forall text lower,
        Company.filter_clause (Company.Filters text lower (Some 0))
        = Company.filter_clause (Company.Filters text lower None))
  /\ (forall lower flag,
        Job.filter_clause (Job.Filters (Some EmptyString) lower flag)
        = Job.filter_clause (Job.Filters None lower flag))
  /\ (forall text flag,
        Job.filter_clause (Job.Filters text (Some 0) flag)
        = Job.filter_clause (Job.Filters text None flag))
  /\ (forall text lower,
        Job.filter_clause (Job.Filters text lower (JBool false))
        = Job.filter_clause (Job.Filters text lower JUndefined))
  /\ (forall f : Company.filters,
        Company.minEmployees f = Some 0 \/ Company.maxEmployees f = Some 0 ->
        Company.bounds_conflict f = false
        /\ Company.findAll f w
           = db_query (Company.findAll_sql (Company.filter_clause f).1)
                      (Company.filter_clause f).2 w)
  /\ Company.filter_clause (Company.Filters None (Some 5) (Some 0))
     = ("WHERE num_employees >= $1", [JNum 5])
  /\ Company.filter_clause (Company.Filters None (Some 0) (Some 0))
     = (EmptyString, []).
Proof.
  do 6 (split; [reflexivity|]).
  split; [|split; reflexivity].
  intros f Hzero.
  pose proof (zero_bound_no_conflict f Hzero) as Hguard.
  split; [exact Hguard | by apply company_findAll_query].
Qed.

Lemma falsy_filter_is_absent_witness :
  Company.bounds_conflict (Company.Filters None (Some 5) (Some 0)) = false
  /\ Company.findAll (Company.Filters None (Some 5) (Some 0))
       (World [inr [[("handle", JStr "c1")]]] [])
     = (inr [[("handle", JStr "c1")]],
        World [] [(Company.findAll_sql "WHERE num_employees >= $1", [JNum 5])]).
Proof.
  destruct (falsy_filter_is_absent (World [inr [[("handle", JStr "c1")]]] []))
    as (_ & _ & _ & _ & _ & _ & Hzero & _).
  destruct (Hzero (Company.Filters None (Some 5) (Some 0))) as [Hguard Hrun].
  - right. reflexivity.
  - split; [exact Hguard|]. rewrite Hrun. reflexivity.
Defined.

(** ** The entity access layer *)

Lemma obj_get_set (k : string) (v : jsval) (o : row) :
  obj_get k (obj_set k v o) = v.
Proof.
  induction o as [|[k' v'] o IH]; simpl.
  - by rewrite String.eqb_refl.
  - destruct (String.eqb k k') eqn:Hk; simpl; by rewrite Hk.
Qed.

Section Access.
Context {DB : Type} `{Storage DB}.

Lemma db_query_run (sql : string) (params : list jsval) (w : world DB)
    (res : error + list row) (s' : DB) :
  exec sql params (store w) = (res, s') ->
  db_query sql params w = (res, World s' (queries w ++ [(sql, params)])).
Proof. intros He. unfold db_query. by rewrite He. Qed.



Lemma company_get_missing (handle : jsval) (w : world DB) (s1 : DB) :
  exec Company.get_sql [handle] (store w) = (inr [], s1) ->
  Company.get handle w
  = (inl (NotFoundError ("No company: " +:+ js_to_string handle)),
     World s1 (queries w ++ [(Company.get_sql, [handle])])).
Proof.
  intros He. unfold Company.get, bind.
  by rewrite (db_query_run _ _ _ _ _ He).
Qed.

Lemma company_get_found (handle : jsval) (w : world DB)
    (company : row) (others jobs : list row) (s1 s2 : DB) :
  exec Company.get_sql [handle] (store w) = (inr (company :: others), s1) ->
  exec Company.get_jobs_sql [handle] s1 = (inr jobs, s2) ->
  Company.get handle w
  = (inr (obj_set "jobs" (JArr (map JObj jobs)) company),
     World s2 (queries w ++ [(Company.get_sql, [handle]);
                             (Company.get_jobs_sql, [handle])])).
Proof.
  intros He1 He2. unfold Company.get, bind.
  rewrite (db_query_run _ _ _ _ _ He1). simpl.
  rewrite (db_query_run _ _ (World s1 _) _ _ He2). simpl.
  by rewrite <- app_assoc.
Qed.

Lemma job_get_missing (id : jsval) (w : world DB) (s1 : DB) :
  exec Job.get_sql [id] (store w) = (inr [], s1) ->
  Job.get id w
  = (inl (NotFoundError ("No job: " +:+ js_to_string id)),
     World s1 (queries w ++ [(Job.get_sql, [id])])).
Proof.
  intros He. unfold Job.get, bind.
  by rewrite (db_query_run _ _ _ _ _ He).
Qed.

Lemma job_get_run (id : jsval) (w : world DB)
    (job : row) (others companies : list row) (s1 s2 : DB) :
  exec Job.get_sql [id] (store w) = (inr (job :: others), s1) ->
  exec Job.get_company_sql [obj_get "companyHandle" job] s1
  = (inr companies, s2) ->
  Job.get id w
  = (match companies with
     | [] => inl (TypeError "Cannot read properties of undefined (reading 'handle')")
     | company :: _ => inr (obj_set "companyHandle" (obj_get "handle" company) job)
     end,
     World s2 (queries w ++ [(Job.get_sql, [id]);
                             (Job.get_company_sql, [obj_get "companyHandle" job])])).
Proof.
  intros He1 He2. unfold Job.get, bind.
  rewrite (db_query_run _ _ _ _ _ He1). simpl.
  rewrite (db_query_run _ _ (World s1 _) _ _ He2). simpl.
  rewrite <- app_assoc. by destruct companies.
Qed.
End Access.



(** C8 as stated fails for jobs: [Job.get] on a store that holds the job
    and its company returns the job row with no collection in it. *)
Lemma job_get_attaches_nothing :
  ~ (forall (id : jsval) (w w' : world (list (error + list row))) (record : row),
        Job.get id w = (inr record, w') ->
        exists property : string,
          (exists related, obj_get property record = JArr related)
          \/ (exists related, obj_get property record = JObj related)).
Proof.
  intros Hclaim.
  destruct (Hclaim (JNum 1)
              (World [inr [[("id", JNum 1); ("title", JStr "j0");
                            ("salary", JNum 1); ("equity", JStr "0");
                            ("companyHandle", JStr "c1")]];
                      inr [[("handle", JStr "c1"); ("name", JStr "C1")]]] [])
              _ _ eq_refl) as (property & [[related Hget] | [related Hget]]);
    simpl in Hget;
    repeat match type of Hget with
           | context [String.eqb property ?k] => destruct (String.eqb property k)
           end; discriminate.
Qed.

(** C8, amended. [Company.get] fails with [NotFoundError] when the company
    lookup has no row, and otherwise returns the company row with the rows
    of the jobs lookup as its [jobs].  [Job.get] fails with [NotFoundError]
    when the job lookup has no row; when the company lookup that follows
    has one, it returns the job row with [companyHandle] set to the handle
    of that company, and nothing nested.  A successful [get] is the primary
    lookup and the related one, two statements in all. *)
Theorem get_two_lookups {DB} `{Storage DB} (w : world DB) (id : jsval) :
  (forall s1 : DB,
      exec Company.get_sql [id] (store w) = (inr [], s1) ->
      Company.get id w
      = (inl (NotFoundError ("No company: " +:+ js_to_string id)),
         World s1 (queries w ++ [(Company.get_sql, [id])])))
  /\ (forall (company : row) (others jobs : list row) (s1 s2 : DB),
        exec Company.get_sql [id] (store w) = (inr (company :: others), s1) ->
        exec Company.get_jobs_sql [id] s1 = (inr jobs, s2) ->
        Company.get id w
        = (inr (obj_set "jobs" (JArr (map JObj jobs)) company),
           World s2 (queries w ++ [(Company.get_sql, [id]);
                                   (Company.get_jobs_sql, [id])]))
        /\ obj_get "jobs" (obj_set "jobs" (JArr (map JObj jobs)) company)
           = JArr (map JObj jobs))
  /\ (forall s1 : DB,
        exec Job.get_sql [id] (store w) = (inr [], s1) ->
        Job.get id w
        = (inl (NotFoundError ("No job: " +:+ js_to_string id)),
           World s1 (queries w ++ [(Job.get_sql, [id])])))
  /\ (forall (job company : row) (others rest : list row) (s1 s2 : DB),
        exec Job.get_sql [id] (store w) = (inr (job :: others), s1) ->
        exec Job.get_company_sql [obj_get "companyHandle" job] s1
        = (inr (company :: rest), s2) ->
        Job.get id w
        = (inr (obj_set "companyHandle" (obj_get "handle" company) job),
           World s2 (queries w ++ [(Job.get_sql, [id]);
                                   (Job.get_company_sql,
                                    [obj_get "companyHandle" job])]))).
Proof.
  split; [|split; [|split]].
  - intros s1 He. by apply company_get_missing.
  - intros company others jobs s1 s2 He1 He2. split.
    + by eapply company_get_found.
    + apply obj_get_set.
  - intros s1 He. by apply job_get_missing.
  - intros job company others rest s1 s2 He1 He2.
    by rewrite (job_get_run id w job others (company :: rest) s1 s2 He1 He2).
Qed.

Lemma get_two_lookups_witness :
  Company.get (JStr "c1")
    (World [inr [[("handle", JStr "c1"); ("name", JStr "C1")]];
            inr [[("id", JNum 1); ("title", JStr "j0")]]] [])
  = (inr [("handle", JStr "c1"); ("name", JStr "C1");
          ("jobs", JArr [JObj [("id", JNum 1); ("title", JStr "j0")]])],
     World [] [(Company.get_sql, [JStr "c1"]); (Company.get_jobs_sql, [JStr "c1"])])
  /\ Job.get (JNum 1)
       (World [inr [[("id", JNum 1); ("companyHandle", JStr "c1")]];
               inr [[("handle", JStr "c1"); ("name", JStr "C1")]]] [])
     = (inr [("id", JNum 1); ("companyHandle", JStr "c1")],
        World [] [(Job.get_sql, [JNum 1]); (Job.get_company_sql, [JStr "c1"])])
  /\ Job.get (JNum 0) (World [inr []] [])
     = (inl (NotFoundError "No job: 0"), World [] [(Job.get_sql, [JNum 0])]).
Proof.
  split; [|split].
  - destruct (get_two_lookups
                (World [inr [[("handle", JStr "c1"); ("name", JStr "C1")]];
                        inr [[("id", JNum 1); ("title", JStr "j0")]]] [])
                (JStr "c1")) as (_ & Hfound & _).
    destruct (Hfound [("handle", JStr "c1"); ("name", JStr "C1")] []
                [[("id", JNum 1); ("title", JStr "j0")]]
                [inr [[("id", JNum 1); ("title", JStr "j0")]]] [])
      as [Hrun _]; [reflexivity | reflexivity |].
    rewrite Hrun. reflexivity.
  - destruct (get_two_lookups
                (World [inr [[("id", JNum 1); ("companyHandle", JStr "c1")]];
                        inr [[("handle", JStr "c1"); ("name", JStr "C1")]]] [])
                (JNum 1)) as (_ & _ & _ & Hfound).
    rewrite (Hfound [("id", JNum 1); ("companyHandle", JStr "c1")]
               [("handle", JStr "c1"); ("name", JStr "C1")] [] []
               [inr [[("handle", JStr "c1"); ("name", JStr "C1")]]] []
               eq_refl eq_refl).
    reflexivity.
  - destruct (get_two_lookups (World [inr []] []) (JNum 0))
      as (_ & _ & Hmissing & _).
    rewrite (Hmissing [] eq_refl). reflexivity.
Defined.

(** C10. [Job.get] reads [rows[0].handle] of the company lookup as it
    comes.  Once the job row is found, a company lookup with a row gives a
    record; one with no row makes the read fail with a [TypeError], which is
    not a [NotFoundError], and no record is returned. *)
Theorem job_get_unguarded {DB} `{Storage DB} (w : world DB) (id : jsval)
    (job : row) (others : list row) (s1 : DB) :
  exec Job.get_sql [id] (store w) = (inr (job :: others), s1) ->
  (forall s2 : DB,
      exec Job.get_company_sql [obj_get "companyHandle" job] s1 = (inr [], s2) ->
      (exists message, (Job.get id w).1 = inl (TypeError message))
      /\ (forall message, (Job.get id w).1 <> inl (NotFoundError message))
      /\ (forall record, (Job.get id w).1 <> inr record))
  /\ (forall (company : row) (rest : list row) (s2 : DB),
        exec Job.get_company_sql [obj_get "companyHandle" job] s1
        = (inr (company :: rest), s2) ->
        (Job.get id w).1
        = inr (obj_set "companyHandle" (obj_get "handle" company) job)).
Proof.
  intros He1. split.
  - intros s2 He2. rewrite (job_get_run id w job others [] s1 s2 He1 He2). simpl.
    split; [by eexists|]. split; intros ?; discriminate.
  - intros company rest s2 He2.
    by rewrite (job_get_run id w job others (company :: rest) s1 s2 He1 He2).
Qed.

Lemma job_get_unguarded_witness :
  (Job.get (JNum 1)
     (World [inr [[("id", JNum 1); ("companyHandle", JStr "gone")]]; inr []] [])).1
  = inl (TypeError "Cannot read properties of undefined (reading 'handle')").
Proof.
  destruct (job_get_unguarded
              (World [inr [[("id", JNum 1); ("companyHandle", JStr "gone")]];
                      inr []] [])
              (JNum 1) [("id", JNum 1); ("companyHandle", JStr "gone")] []
              [inr []] eq_refl) as [Hmissing _].
  destruct (Hmissing [] eq_refl) as [[message Hfail] _].
  rewrite Hfail. f_equal.
  vm_compute in Hfail. by injection Hfail as <-.
Defined.

(** * Further properties of the model layer *)

(** ** Creating and removing *)

Section CreateRemove.
Context {DB : Type} `{Storage DB}.

(** X1. [Company.create] looks the handle up first.  If the lookup has a
    row the operation fails with [BadRequestError] naming the handle, and
    the lookup is the only statement that went out: no INSERT is sent.  If
    it has none, the INSERT follows with the five fields in column order,
    and its first row (or [undefined]) is the result. *)
Theorem company_create_checks_duplicate (data : row) (w : world DB) :
  (forall (existing : row) (others : list row) (s1 : DB),
      exec Company.create_check_sql [obj_get "handle" data] (store w)
      = (inr (existing :: others), s1) ->
      Company.create data w
      = (inl (BadRequestError
                ("Duplicate company: " +:+ js_to_string (obj_get "handle" data))),
         World s1 (queries w
                   ++ [(Company.create_check_sql, [obj_get "handle" data])])))
  /\ (forall (s1 s2 : DB) (res : error + list row),
        exec Company.create_check_sql [obj_get "handle" data] (store w)
        = (inr [], s1) ->
        exec Company.create_sql
             [obj_get "handle" data; obj_get "name" data;
              obj_get "description" data; obj_get "numEmployees" data;
              obj_get "logoUrl" data] s1 = (res, s2) ->
        Company.create data w
        = (match res with inl e => inl e | inr rows => inr (head rows) end,
           World s2 (queries w
                     ++ [(Company.create_check_sql, [obj_get "handle" data]);
                         (Company.create_sql,
                          [obj_get "handle" data; obj_get "name" data;
                           obj_get "description" data;
                           obj_get "numEmployees" data;
                           obj_get "logoUrl" data])]))).
Proof.
  split.
  - intros existing others s1 He. unfold Company.create, bind, db_query.
    by rewrite He.
  - intros s1 s2 res He1 He2. unfold Company.create, bind, db_query.
    rewrite He1. simpl. rewrite He2. rewrite <- app_assoc.
    by destruct res.
Qed.

(** X2. [Job.create] has no duplicate check: it is one INSERT with the
    four fields in column order, whatever the store holds, and the result
    is the first returned row (or [undefined]). *)
Theorem job_create_single_insert (data : row) (w : world DB)
    (res : error + list row) (s1 : DB) :
  exec Job.create_sql
       [obj_get "title" data; obj_get "salary" data; obj_get "equity" data;
        obj_get "companyHandle" data] (store w) = (res, s1) ->
  Job.create data w
  = (match res with inl e => inl e | inr rows => inr (head rows) end,
     World s1 (queries w
               ++ [(Job.create_sql,
                    [obj_get "title" data; obj_get "salary" data;
                     obj_get "equity" data; obj_get "companyHandle" data])])).
Proof.
  intros He. unfold Job.create, bind, db_query. rewrite He. by destruct res.
Qed.

(** X3. [remove] is one DELETE bound to the identifier.  It succeeds as
    soon as the statement returns a row, and fails with [NotFoundError]
    when it returns none. *)
Theorem remove_needs_a_row (id : jsval) (w : world DB) :
  (forall (res : error + list row) (s1 : DB),
      exec Company.remove_sql [id] (store w) = (res, s1) ->
      Company.remove id w
      = (match res with
         | inl e => inl e
         | inr [] => inl (NotFoundError ("No company: " +:+ js_to_string id))
         | inr (_ :: _) => inr tt
         end,
         World s1 (queries w ++ [(Company.remove_sql, [id])])))
  /\ (forall (res : error + list row) (s1 : DB),
        exec Job.remove_sql [id] (store w) = (res, s1) ->
        Job.remove id w
        = (match res with
           | inl e => inl e
           | inr [] => inl (NotFoundError ("No job: " +:+ js_to_string id))
           | inr (_ :: _) => inr tt
           end,
           World s1 (queries w ++ [(Job.remove_sql, [id])]))).
Proof.
  split; intros res s1 He.
  - unfold Company.remove, bind, db_query. rewrite He.
    by destruct res as [e | [|deleted rest]].
  - unfold Job.remove, bind, db_query. rewrite He.
    by destruct res as [e | [|deleted rest]].
Qed.

End CreateRemove.

Lemma company_create_checks_duplicate_witness :
  Company.create [("handle", JStr "c1"); ("name", JStr "C1")]
    (World [inr [[("handle", JStr "c1")]]] [])
  = (inl (BadRequestError "Duplicate company: c1"),
     World [] [(Company.create_check_sql, [JStr "c1"])])
  /\ Company.create [("handle", JStr "new"); ("name", JStr "New")]
       (World [inr []; inr [[("handle", JStr "new"); ("name", JStr "New")]]] [])
     = (inr (Some [("handle", JStr "new"); ("name", JStr "New")]),
        World []
          [(Company.create_check_sql, [JStr "new"]);
           (Company.create_sql,
            [JStr "new"; JStr "New"; JUndefined; JUndefined; JUndefined])]).
Proof.
  split.
  - apply (proj1 (company_create_checks_duplicate
                    [("handle", JStr "c1"); ("name", JStr "C1")]
                    (World [inr [[("handle", JStr "c1")]]] []))
                 [("handle", JStr "c1")] [] []).
    reflexivity.
  - apply (proj2 (company_create_checks_duplicate
                    [("handle", JStr "new"); ("name", JStr "New")]
                    (World [inr []; inr [[("handle", JStr "new"); ("name", JStr "New")]]] []))
                 [inr [[("handle", JStr "new"); ("name", JStr "New")]]] []
                 (inr [[("handle", JStr "new"); ("name", JStr "New")]]));
      reflexivity.
Defined.

Lemma job_create_single_insert_witness :
  Job.create [("title", JStr "new"); ("salary", JNum 999);
              ("equity", JStr "0"); ("companyHandle", JStr "c1")]
    (World [inr [[("id", JNum 7); ("title", JStr "new")]]] [])
  = (inr (Some [("id", JNum 7); ("title", JStr "new")]),
     World [] [(Job.create_sql,
                [JStr "new"; JNum 999; JStr "0"; JStr "c1"])]).
Proof.
  apply (job_create_single_insert
           [("title", JStr "new"); ("salary", JNum 999);
            ("equity", JStr "0"); ("companyHandle", JStr "c1")]
           (World [inr [[("id", JNum 7); ("title", JStr "new")]]] [])
           (inr [[("id", JNum 7); ("title", JStr "new")]]) []).
  reflexivity.
Defined.

Lemma remove_needs_a_row_witness :
  Job.remove (JNum 0) (World [inr []] [])
  = (inl (NotFoundError "No job: 0"), World [] [(Job.remove_sql, [JNum 0])])
  /\ Company.remove (JStr "c1") (World [inr [[("handle", JStr "c1")]]] [])
     = (inr tt, World [] [(Company.remove_sql, [JStr "c1"])]).
Proof.
  split.
  - apply (proj2 (remove_needs_a_row (JNum 0) (World [inr []] [])) (inr []) []).
    reflexivity.
  - apply (proj1 (remove_needs_a_row (JStr "c1")
                    (World [inr [[("handle", JStr "c1")]]] []))
                 (inr [[("handle", JStr "c1")]]) []).
    reflexivity.
Defined.

(** ** Statements sent and rejected queries *)

(** Unfolds an operation down to the calls of [exec] and splits on what
    each call answers. *)
Ltac run_operation :=
  unfold bind, db_query, throw, ret; simpl;
  repeat match goal with
    | |- context [exec ?sql ?params ?s] =>
        destruct (exec sql params s) as [[?|[|? ?]] ?]; simpl
    end.

Ltac count_statements :=
  first
    [ exists []; split; [by rewrite app_nil_r | simpl; lia]
    | eexists [_]; split; [reflexivity | simpl; lia]
    | eexists [_; _]; split; [by rewrite <- app_assoc | simpl; lia] ].

Section Statements.
Context {DB : Type} `{Storage DB}.

(** X4. Whatever the store answers, an operation only adds to the log of
    statements, and it adds few: a listing and an update at most one, a
    removal and a job creation exactly one, a [get] and a company
    creation one or two. *)
Theorem statements_are_bounded (w : world DB) :
  (forall f, exists sent,
      queries (Company.findAll f w).2 = queries w ++ sent
      /\ (length sent <= 1)%nat)
  /\ (forall f, exists sent,
        queries (Job.findAll f w).2 = queries w ++ sent
        /\ length sent = 1%nat)
  /\ (forall id data, exists sent,
        queries (Company.update id data w).2 = queries w ++ sent
        /\ (length sent <= 1)%nat)
  /\ (forall id data, exists sent,
        queries (Job.update id data w).2 = queries w ++ sent
        /\ (length sent <= 1)%nat)
  /\ (forall id, exists sent,
        queries (Company.remove id w).2 = queries w ++ sent
        /\ length sent = 1%nat)
  /\ (forall id, exists sent,
        queries (Job.remove id w).2 = queries w ++ sent
        /\ length sent = 1%nat)
  /\ (forall data, exists sent,
        queries (Job.create data w).2 = queries w ++ sent
        /\ length sent = 1%nat)
  /\ (forall data, exists sent,
        queries (Company.create data w).2 = queries w ++ sent
        /\ (1 <= length sent <= 2)%nat)
  /\ (forall id, exists sent,
        queries (Company.get id w).2 = queries w ++ sent
        /\ (1 <= length sent <= 2)%nat)
  /\ (forall id, exists sent,
        queries (Job.get id w).2 = queries w ++ sent
        /\ (1 <= length sent <= 2)%nat).
Proof.
  repeat split.
  - intros f. unfold Company.findAll.
    destruct (Company.bounds_conflict f);
      [|destruct (Company.filter_clause f) as [clause vals]];
      run_operation; count_statements.
  - intros f. unfold Job.findAll.
    destruct (Job.filter_clause f) as [clause vals];
      run_operation; count_statements.
  - intros id data. unfold Company.update.
    destruct (sqlForPartialUpdate data Company.jsToSql) as [e|u];
      run_operation; count_statements.
  - intros id data. unfold Job.update.
    destruct (sqlForPartialUpdate data ∅) as [e|u];
      run_operation; count_statements.
  - intros id. unfold Company.remove. run_operation; count_statements.
  - intros id. unfold Job.remove. run_operation; count_statements.
  - intros data. unfold Job.create. run_operation; count_statements.
  - intros data. unfold Company.create. run_operation; count_statements.
  - intros id. unfold Company.get. run_operation; count_statements.
  - intros id. unfold Job.get. run_operation; count_statements.
Qed.

(** X5. A rejected query is not swallowed: the operation fails with the
    store's own error and sends nothing after it.  This holds for the first
    statement of [findAll], [get], [Company.create] and [remove], and for
    the second statement of [get]. *)
Theorem rejected_query_propagates (w : world DB) (e : error) (s1 : DB) :
  (forall f,
      Company.bounds_conflict f = false ->
      exec (Company.findAll_sql (Company.filter_clause f).1)
           (Company.filter_clause f).2 (store w) = (inl e, s1) ->
      Company.findAll f w
      = (inl e, World s1 (queries w
                          ++ [(Company.findAll_sql (Company.filter_clause f).1,
                               (Company.filter_clause f).2)])))
  /\ (forall f,
        exec (Job.findAll_sql (Job.filter_clause f).1)
             (Job.filter_clause f).2 (store w) = (inl e, s1) ->
        Job.findAll f w
        = (inl e, World s1 (queries w
                            ++ [(Job.findAll_sql (Job.filter_clause f).1,
                                 (Job.filter_clause f).2)])))
  /\ (forall id,
        exec Company.get_sql [id] (store w) = (inl e, s1) ->
        Company.get id w
        = (inl e, World s1 (queries w ++ [(Company.get_sql, [id])])))
  /\ (forall id,
        exec Job.get_sql [id] (store w) = (inl e, s1) ->
        Job.get id w
        = (inl e, World s1 (queries w ++ [(Job.get_sql, [id])])))
  /\ (forall id company others s0,
        exec Company.get_sql [id] (store w) = (inr (company :: others), s0) ->
        exec Company.get_jobs_sql [id] s0 = (inl e, s1) ->
        Company.get id w
        = (inl e, World s1 (queries w ++ [(Company.get_sql, [id]);
                                          (Company.get_jobs_sql, [id])])))
  /\ (forall id job others s0,
        exec Job.get_sql [id] (store w) = (inr (job :: others), s0) ->
        exec Job.get_company_sql [obj_get "companyHandle" job] s0 = (inl e, s1) ->
        Job.get id w
        = (inl e, World s1 (queries w
                            ++ [(Job.get_sql, [id]);
                                (Job.get_company_sql,
                                 [obj_get "companyHandle" job])])))
  /\ (forall data,
        exec Company.create_check_sql [obj_get "handle" data] (store w)
        = (inl e, s1) ->
        Company.create data w
        = (inl e, World s1 (queries w
                            ++ [(Company.create_check_sql,
                                 [obj_get "handle" data])])))
  /\ (forall id,
        exec Company.remove_sql [id] (store w) = (inl e, s1) ->
        Company.remove id w
        = (inl e, World s1 (queries w ++ [(Company.remove_sql, [id])])))
  /\ (forall id,
        exec Job.remove_sql [id] (store w) = (inl e, s1) ->
        Job.remove id w
        = (inl e, World s1 (queries w ++ [(Job.remove_sql, [id])]))).
Proof.
  repeat split.
  - intros f Hok He. rewrite (company_findAll_query f w Hok).
    unfold db_query. by rewrite He.
  - intros f He. rewrite (job_findAll_query f w). unfold db_query. by rewrite He.
  - intros id He. unfold Company.get, bind, db_query. by rewrite He.
  - intros id He. unfold Job.get, bind, db_query. by rewrite He.
  - intros id company others s0 He1 He2. unfold Company.get, bind, db_query.
    rewrite He1. simpl. rewrite He2. by rewrite <- app_assoc.
  - intros id job others s0 He1 He2. unfold Job.get, bind, db_query.
    rewrite He1. simpl. rewrite He2. by rewrite <- app_assoc.
  - intros data He. unfold Company.create, bind, db_query. by rewrite He.
  - intros id He. unfold Company.remove, bind, db_query. by rewrite He.
  - intros id He. unfold Job.remove, bind, db_query. by rewrite He.
Qed.

End Statements.

Lemma rejected_query_propagates_witness :
  Company.get (JStr "c1")
    (World [inr [[("handle", JStr "c1")]]; inl (DbError "connection lost")] [])
  = (inl (DbError "connection lost"),
     World [] [(Company.get_sql, [JStr "c1"]); (Company.get_jobs_sql, [JStr "c1"])])
  /\ Job.findAll (Job.Filters None (Some 200) JUndefined)
       (World [inl (DbError "connection lost")] [])
     = (inl (DbError "connection lost"),
        World [] [(Job.findAll_sql "WHERE salary >= $1", [JNum 200])]).
Proof.
  destruct (rejected_query_propagates
              (World [inr [[("handle", JStr "c1")]];
                      inl (DbError "connection lost")] [])
              (DbError "connection lost") [])
    as (_ & _ & _ & _ & Hget & _).
  destruct (rejected_query_propagates
              (World [inl (DbError "connection lost")] [])
              (DbError "connection lost") [])
    as (_ & Hlist & _).
  split.
  - apply (Hget (JStr "c1") [("handle", JStr "c1")] []
                [inl (DbError "connection lost")]); reflexivity.
  - apply (Hlist (Job.Filters None (Some 200) JUndefined)). reflexivity.
Defined.

(** ** More on the filter clauses *)

(** The clause of the company listing is that of the filters with every
    truthy value replaced by a fixed one. *)
Lemma company_clause_by_activity (f : Company.filters) :
  (Company.filter_clause f).1
  = (Company.filter_clause
       (Company.Filters
          (if truthy (js_opt JStr (Company.name f)) then Some "x" else None)
          (if truthy (js_opt JNum (Company.minEmployees f)) then Some 1 else None)
          (if truthy (js_opt JNum (Company.maxEmployees f)) then Some 1 else None))).1.
Proof. filter_cases f; reflexivity. Qed.

Lemma job_clause_by_activity (f : Job.filters) :
  (Job.filter_clause f).1
  = (Job.filter_clause
       (Job.Filters
          (if truthy (js_opt JStr (Job.title f)) then Some "x" else None)
          (if truthy (js_opt JNum (Job.minSalary f)) then Some 1 else None)
          (JBool (truthy (Job.hasEquity f))))).1.
Proof.
  filter_cases f; unfold Job.filter_clause; simpl;
    destruct (truthy third); reflexivity.
Qed.

(** X6. The text of a filter clause depends only on which filters are
    active: the filter values go to the parameter list and never into the
    statement, so two filter objects that are truthy in the same places
    produce the same statement. *)
Theorem filter_values_stay_out_of_sql :
  (forall f g : Company.filters,
      truthy (js_opt JStr (Company.name f)) = truthy (js_opt JStr (Company.name g)) ->
      truthy (js_opt JNum (Company.minEmployees f))
      = truthy (js_opt JNum (Company.minEmployees g)) ->
      truthy (js_opt JNum (Company.maxEmployees f))
      = truthy (js_opt JNum (Company.maxEmployees g)) ->
      Company.findAll_sql (Company.filter_clause f).1
      = Company.findAll_sql (Company.filter_clause g).1)
  /\ (forall f g : Job.filters,
        truthy (js_opt JStr (Job.title f)) = truthy (js_opt JStr (Job.title g)) ->
        truthy (js_opt JNum (Job.minSalary f))
        = truthy (js_opt JNum (Job.minSalary g)) ->
        truthy (Job.hasEquity f) = truthy (Job.hasEquity g) ->
        Job.findAll_sql (Job.filter_clause f).1
        = Job.findAll_sql (Job.filter_clause g).1).
Proof.
  split.
  - intros f g Hname Hmin Hmax.
    rewrite (company_clause_by_activity f), (company_clause_by_activity g).
    by rewrite Hname, Hmin, Hmax.
  - intros f g Htitle Hmin Hflag.
    rewrite (job_clause_by_activity f), (job_clause_by_activity g).
    by rewrite Htitle, Hmin, Hflag.
Qed.

Lemma filter_values_stay_out_of_sql_witness :
  Company.findAll_sql
    (Company.filter_clause
       (Company.Filters (Some "'; DROP TABLE companies; --") None (Some 7))).1
  = Company.findAll_sql
      (Company.filter_clause (Company.Filters (Some "net") None (Some 300))).1.
Proof.
  apply (proj1 filter_values_stay_out_of_sql
               (Company.Filters (Some "'; DROP TABLE companies; --") None (Some 7))
               (Company.Filters (Some "net") None (Some 300)));
    reflexivity.
Defined.

(** X7. With no active filter the clause is empty and there are no
    values; with any active filter the clause opens with [WHERE].  In the
    company listing the clause is empty exactly when the values are; in
    the job listing the flag alone gives a clause with no value. *)
Theorem no_filter_no_clause :
  (forall f : Company.filters,
      if truthy (js_opt JStr (Company.name f))
         || truthy (js_opt JNum (Company.minEmployees f))
         || truthy (js_opt JNum (Company.maxEmployees f))
      then String.prefix "WHERE " (Company.filter_clause f).1 = true
           /\ (Company.filter_clause f).2 <> []
      else Company.filter_clause f = (EmptyString, []))
  /\ (forall f : Job.filters,
        (if truthy (js_opt JStr (Job.title f))
            || truthy (js_opt JNum (Job.minSalary f))
            || truthy (Job.hasEquity f)
         then String.prefix "WHERE " (Job.filter_clause f).1 = true
         else (Job.filter_clause f).1 = EmptyString)
        /\ (if truthy (js_opt JStr (Job.title f))
               || truthy (js_opt JNum (Job.minSalary f))
            then (Job.filter_clause f).2 <> []
            else (Job.filter_clause f).2 = [])).
Proof.
  split.
  - intros f. filter_cases f; first [reflexivity | split; [reflexivity | discriminate]].
  - intros f. filter_cases f; unfold Job.filter_clause; simpl;
      destruct (truthy third); simpl;
      (split; first [reflexivity | discriminate]).
Qed.

(** X8. Apart from two non-zero bounds in the wrong order, nothing makes
    the company listing refuse its filters: with a bound missing, a bound of
    0, or the lower bound not above the upper one (equal bounds included),
    the listing is the one query built from the filters.  The job listing
    never refuses. *)
Theorem findAll_accepts {DB} `{Storage DB} (w : world DB) :
  (forall f : Company.filters,
      Company.minEmployees f = None \/ Company.maxEmployees f = None
      \/ Company.minEmployees f = Some 0 \/ Company.maxEmployees f = Some 0
      \/ (exists mn mx, Company.minEmployees f = Some mn
                        /\ Company.maxEmployees f = Some mx /\ mn <= mx) ->
      Company.findAll f w
      = db_query (Company.findAll_sql (Company.filter_clause f).1)
                 (Company.filter_clause f).2 w)
  /\ (forall f : Job.filters,
        Job.findAll f w
        = db_query (Job.findAll_sql (Job.filter_clause f).1)
                   (Job.filter_clause f).2 w).
Proof.
  split; [|intros f; apply job_findAll_query].
  intros [text lower upper] Hcase. apply company_findAll_query.
  unfold Company.bounds_conflict. simpl in *.
  destruct Hcase as [-> | [-> | [-> | [-> | (mn & mx & -> & -> & Hle)]]]]; simpl.
  - reflexivity.
  - by rewrite andb_false_r.
  - reflexivity.
  - by rewrite andb_false_r.
  - apply andb_false_iff. right. apply Z.ltb_ge. exact Hle.
Qed.

Lemma findAll_accepts_witness :
  Company.findAll (Company.Filters None (Some 5) (Some 5))
    (World [inr [[("handle", JStr "c1")]]] [])
  = (inr [[("handle", JStr "c1")]],
     World [] [(Company.findAll_sql
                  "WHERE num_employees >= $1 AND num_employees <= $2",
                [JNum 5; JNum 5])]).
Proof.
  rewrite (proj1 (findAll_accepts (World [inr [[("handle", JStr "c1")]]] []))
                 (Company.Filters None (Some 5) (Some 5))).
  - reflexivity.
  - right. right. right. right. exists 5, 5.
    split; [reflexivity | split; [reflexivity | lia]].
Defined.

(** ** More on the partial-update builder *)

Lemma placeholder_inj (i j : nat) : placeholder i = placeholder j -> i = j.
Proof.
  unfold placeholder. simpl. intros Heq. injection Heq as Heq.
  by apply (inj pretty).
Qed.

Lemma string_app_assoc (s t r : string) : (s +:+ t) +:+ r = s +:+ t +:+ r.
Proof.
  induction s as [|a s IH]; [reflexivity|].
  change (String a ((s +:+ t) +:+ r) = String a (s +:+ t +:+ r)).
  by rewrite IH.
Qed.

Lemma join_snoc (sep s : string) (l : list string) :
  l <> [] -> join sep (l ++ [s]) = join sep l +:+ sep +:+ s.
Proof.
  induction l as [|a l IH]; intros Hne; [done|].
  destruct l as [|b l]; [reflexivity|].
  change (join sep ((a :: b :: l) ++ [s]))
    with (a +:+ sep +:+ join sep ((b :: l) ++ [s])).
  rewrite IH by discriminate.
  change (join sep (a :: b :: l)) with (a +:+ sep +:+ join sep (b :: l)).
  by rewrite !string_app_assoc.
Qed.

(** X9. The placeholders of an update never collide.  The placeholder
    that [update] binds to the identifier, one past the number of values,
    differs from the placeholder of every assignment, also when there is a
    single one; and two different keys get different placeholders. *)
Theorem update_placeholders_distinct (data : row) (m : gmap string string)
    (u : partial_update) (i : nat) (ki : string) (vi : jsval) :
  sqlForPartialUpdate data m = inr u ->
  data !! i = Some (ki, vi) ->
  cols data m !! i
  = Some (dq +:+ column_name m ki +:+ dq +:+ "=" +:+ placeholder (S i))
  /\ placeholder (S i) <> placeholder (length (values u) + 1)
  /\ forall (j : nat) (kj : string) (vj : jsval),
       data !! j = Some (kj, vj) ->
       i <> j ->
       cols data m !! j
       = Some (dq +:+ column_name m kj +:+ dq +:+ "=" +:+ placeholder (S j))
       /\ placeholder (S i) <> placeholder (S j).
Proof.
  intros Hu Hi.
  split; [by eapply cols_lookup|]. split.
  - intros Heq. apply placeholder_inj in Heq.
    assert (Hlt : (i < length data)%nat) by (by eapply lookup_lt_Some).
    assert (Hne' : data <> []) by (intros ->; discriminate).
    rewrite (sqlForPartialUpdate_nonempty data m Hne') in Hu.
    injection Hu as <-. simpl in Heq. rewrite length_fmap in Heq. lia.
  - intros j kj vj Hj Hne. split; [by eapply cols_lookup|].
    intros Heq. apply placeholder_inj in Heq. lia.
Qed.

Lemma update_placeholders_distinct_witness :
  placeholder 1 <> placeholder 2
  /\ (placeholder 1 <> placeholder 3 /\ placeholder 1 <> placeholder 2).
Proof.
  split.
  - destruct (update_placeholders_distinct
                [("title", JStr "New")] ∅
                {| setCols := dq +:+ "title" +:+ dq +:+ "=$1";
                   values := [JStr "New"] |}
                0 "title" (JStr "New"))
      as (_ & Hwhere & _); [vm_compute; reflexivity | reflexivity |].
    exact Hwhere.
  - destruct (update_placeholders_distinct
                [("name", JStr "New"); ("numEmployees", JNum 10)]
                Company.jsToSql
                {| setCols := dq +:+ "name" +:+ dq +:+ "=$1, "
                              +:+ dq +:+ "num_employees" +:+ dq +:+ "=$2";
                   values := [JStr "New"; JNum 10] |}
                0 "name" (JStr "New"))
      as (_ & Hwhere & Hpair); [vm_compute; reflexivity | reflexivity |].
    split; [exact Hwhere|].
    apply (Hpair 1%nat "numEmployees" (JNum 10)); [reflexivity | lia].
Defined.

(** X10. The builder is incremental: a property added at the end of a
    non-empty object adds one fragment, numbered after the others, behind
    a [", "], and one value at the end; what was there stays as it was. *)
Theorem sqlForPartialUpdate_snoc (data : row) (m : gmap string string)
    (k : string) (v : jsval) :
  data <> [] ->
  sqlForPartialUpdate (data ++ [(k, v)]) m
  = inr {| setCols := join ", " (cols data m) +:+ ", "
                      +:+ dq +:+ column_name m k +:+ dq +:+ "="
                      +:+ placeholder (length data + 1);
           values := data.*2 ++ [v] |}.
Proof.
  intros Hne.
  rewrite sqlForPartialUpdate_nonempty by (by destruct data).
  f_equal. f_equal.
  - unfold cols. rewrite fmap_app, imap_app. simpl.
    rewrite length_fmap, Nat.add_0_r.
    apply join_snoc. by destruct data.
  - by rewrite fmap_app.
Qed.

Lemma sqlForPartialUpdate_snoc_witness :
  sqlForPartialUpdate ([("name", JStr "Test name")] ++ [("numEmployees", JNum 100)])
    {[ "numEmployees" := "num_employees" ]}
  = inr {| setCols := dq +:+ "name" +:+ dq +:+ "=$1, "
                      +:+ dq +:+ "num_employees" +:+ dq +:+ "=$2";
           values := [JStr "Test name"; JNum 100] |}.
Proof.
  rewrite (sqlForPartialUpdate_snoc [("name", JStr "Test name")]
             {[ "numEmployees" := "num_employees" ]} "numEmployees" (JNum 100))
    by discriminate.
  vm_compute. reflexivity.
Defined.

Lemma company_column_name (k : string) :
  column_name Company.jsToSql k
  = if String.eqb k "numEmployees" then "num_employees"
    else if String.eqb k "logoUrl" then "logo_url"
    else default k (inherited_from Object_prototype k).
Proof.
  unfold column_name, Company.jsToSql.
  destruct (String.eqb_spec k "numEmployees") as [-> | Hn].
  - by rewrite lookup_insert_eq.
  - rewrite lookup_insert_ne by done.
    destruct (String.eqb_spec k "logoUrl") as [-> | Hl].
    + by rewrite lookup_singleton_eq.
    + rewrite lookup_singleton_ne by done.
      by destruct (inherited_from Object_prototype k).
Qed.

(** X11. [Company.update] renames two keys: [numEmployees] becomes the
    column [num_employees] and [logoUrl] becomes [logo_url].  [Job.update]
    renames none.  In both, any other key is the column as it stands,
    unless it names a property of [Object.prototype], such as
    [constructor] or [toString]: then the column is the text of what is
    inherited under that name. *)
Theorem update_column_names (data : row) (i : nat) (k : string) (v : jsval) :
  data !! i = Some (k, v) ->
  cols data Company.jsToSql !! i
  = Some (dq +:+ (if String.eqb k "numEmployees" then "num_employees"
                  else if String.eqb k "logoUrl" then "logo_url"
                  else default k (inherited_from Object_prototype k))
          +:+ dq +:+ "=" +:+ placeholder (S i))
  /\ cols data ∅ !! i
     = Some (dq +:+ default k (inherited_from Object_prototype k)
             +:+ dq +:+ "=" +:+ placeholder (S i))
  /\ (inherited_from Object_prototype k = None ->
      k <> "numEmployees" -> k <> "logoUrl" ->
      cols data Company.jsToSql !! i
      = Some (dq +:+ k +:+ dq +:+ "=" +:+ placeholder (S i))
      /\ cols data ∅ !! i
         = Some (dq +:+ k +:+ dq +:+ "=" +:+ placeholder (S i))).
Proof.
  intros Hi.
  assert (Hcompany : cols data Company.jsToSql !! i
            = Some (dq +:+ (if String.eqb k "numEmployees" then "num_employees"
                            else if String.eqb k "logoUrl" then "logo_url"
                            else default k (inherited_from Object_prototype k))
                    +:+ dq +:+ "=" +:+ placeholder (S i))).
  { rewrite (cols_lookup data _ i k v Hi). by rewrite company_column_name. }
  assert (Hjob : cols data ∅ !! i
            = Some (dq +:+ default k (inherited_from Object_prototype k)
                    +:+ dq +:+ "=" +:+ placeholder (S i))).
  { rewrite (cols_lookup data _ i k v Hi). unfold column_name.
    rewrite lookup_empty. by destruct (inherited_from Object_prototype k). }
  split; [exact Hcompany|]. split; [exact Hjob|].
  intros Hown Hn Hl. rewrite Hcompany, Hjob, Hown. simpl.
  destruct (String.eqb_spec k "numEmployees") as [-> | _]; [done|].
  destruct (String.eqb_spec k "logoUrl") as [-> | _]; [done|].
  by split.
Qed.

Lemma update_column_names_witness :
  cols [("logoUrl", JStr "/logo.png"); ("description", JStr "d");
        ("toString", JStr "t")]
       Company.jsToSql !! 0%nat
  = Some (dq +:+ "logo_url" +:+ dq +:+ "=" +:+ placeholder 1)
  /\ cols [("logoUrl", JStr "/logo.png"); ("description", JStr "d");
           ("toString", JStr "t")]
          Company.jsToSql !! 1%nat
     = Some (dq +:+ "description" +:+ dq +:+ "=" +:+ placeholder 2)
  /\ cols [("logoUrl", JStr "/logo.png"); ("description", JStr "d");
           ("toString", JStr "t")]
          ∅ !! 2%nat
     = Some (dq +:+ "function toString() { [native code] }" +:+ dq
             +:+ "=" +:+ placeholder 3).
Proof.
  split; [|split].
  - apply (proj1 (update_column_names
                    [("logoUrl", JStr "/logo.png"); ("description", JStr "d");
                     ("toString", JStr "t")]
                    0 "logoUrl" (JStr "/logo.png") eq_refl)).
  - destruct (update_column_names
                [("logoUrl", JStr "/logo.png"); ("description", JStr "d");
                 ("toString", JStr "t")]
                1 "description" (JStr "d") eq_refl) as (_ & _ & Hplain).
    apply Hplain; [reflexivity | discriminate | discriminate].
  - apply (proj1 (proj2 (update_column_names
                    [("logoUrl", JStr "/logo.png"); ("description", JStr "d");
                     ("toString", JStr "t")]
                    2 "toString" (JStr "t") eq_refl))).
Defined.

(** ** What [get] returns *)

Lemma obj_get_set_ne (k k' : string) (v : jsval) (o : row) :
  k <> k' -> obj_get k (obj_set k' v o) = obj_get k o.
Proof.
  intros Hne. induction o as [|[k0 v0] o IH]; simpl.
  - by destruct (String.eqb_spec k k').
  - destruct (String.eqb_spec k' k0) as [-> | Hk0]; simpl.
    + by destruct (String.eqb_spec k k0).
    + by rewrite IH.
Qed.

Lemma obj_set_get_same (k : string) (o : row) :
  k ∈ o.*1 -> obj_set k (obj_get k o) o = o.
Proof.
  induction o as [|[k0 v0] o IH]; simpl; intros Hin.
  - by apply elem_of_nil in Hin.
  - destruct (String.eqb_spec k k0) as [-> | Hk0]; [reflexivity|].
    apply elem_of_cons in Hin as [-> | Hin]; [done|]. by rewrite IH.
Qed.

Lemma obj_set_keys (k : string) (v : jsval) (o : row) :
  (obj_set k v o).*1 = if bool_decide (k ∈ o.*1) then o.*1 else o.*1 ++ [k].
Proof.
  induction o as [|[k0 v0] o IH].
  - case_bool_decide as Hin; [by apply elem_of_nil in Hin | reflexivity].
  - change ((if String.eqb k k0 then (k0, v) :: o else (k0, v0) :: obj_set k v o).*1
            = if bool_decide (k ∈ k0 :: o.*1) then k0 :: o.*1 else (k0 :: o.*1) ++ [k]).
    destruct (String.eqb_spec k k0) as [-> | Hk0].
    + rewrite bool_decide_eq_true_2 by (apply elem_of_cons; by left).
      reflexivity.
    + rewrite fmap_cons, IH. simpl.
      destruct (decide (k ∈ o.*1)) as [Hin | Hout].
      * rewrite (bool_decide_eq_true_2 (k ∈ o.*1)) by done.
        rewrite (bool_decide_eq_true_2 (k ∈ k0 :: o.*1))
          by (apply elem_of_cons; by right).
        reflexivity.
      * rewrite (bool_decide_eq_false_2 (k ∈ o.*1)) by done.
        rewrite (bool_decide_eq_false_2 (k ∈ k0 :: o.*1))
          by (intros [-> | Hin]%elem_of_cons; done).
        reflexivity.
Qed.

Lemma obj_set_absent (k : string) (v : jsval) (o : row) :
  k ∉ o.*1 -> obj_set k v o = o ++ [(k, v)].
Proof.
  induction o as [|[k0 v0] o IH]; intros Hout; [reflexivity|].
  simpl. destruct (String.eqb_spec k k0) as [-> | Hk0].
  - exfalso. apply Hout. apply elem_of_cons. by left.
  - f_equal. apply IH. intros Hin. apply Hout. apply elem_of_cons. by right.
Qed.

Section GetResults.
Context {DB : Type} `{Storage DB}.

(** X12. The record of [Company.get] is the company row as the store gave
    it, with one property more: every column reads as in the row, [jobs]
    is the list of job rows in the order of the lookup (the empty list for
    a company without jobs, which is still found), and when the row has no
    [jobs] of its own the new property comes last. *)
Theorem company_get_keeps_columns (id : jsval) (w : world DB)
    (company : row) (others jobs : list row) (s1 s2 : DB) :
  exec Company.get_sql [id] (store w) = (inr (company :: others), s1) ->
  exec Company.get_jobs_sql [id] s1 = (inr jobs, s2) ->
  exists record,
    (Company.get id w).1 = inr record
    /\ (forall k, k <> "jobs" -> obj_get k record = obj_get k company)
    /\ obj_get "jobs" record = JArr (map JObj jobs)
    /\ ("jobs" ∉ company.*1 -> record = company ++ [("jobs", JArr (map JObj jobs))]).
Proof.
  intros He1 He2. eexists. split; [|split; [|split]].
  - by rewrite (company_get_found id w company others jobs s1 s2 He1 He2).
  - intros k Hk. by apply obj_get_set_ne.
  - apply obj_get_set.
  - intros Hout. by apply obj_set_absent.
Qed.

(** X13. The record of [Job.get] is the job row with [companyHandle]
    overwritten by the handle of the company that was looked up: every
    other column reads as in the row, the properties keep their order, and
    when the company's handle is the one the job already carries, as it is
    for the row the lookup selects by that handle, the record is the job
    row unchanged. *)
Theorem job_get_keeps_row (id : jsval) (w : world DB)
    (job company : row) (others rest : list row) (s1 s2 : DB) :
  exec Job.get_sql [id] (store w) = (inr (job :: others), s1) ->
  exec Job.get_company_sql [obj_get "companyHandle" job] s1
  = (inr (company :: rest), s2) ->
  exists record,
    (Job.get id w).1 = inr record
    /\ (forall k, k <> "companyHandle" -> obj_get k record = obj_get k job)
    /\ obj_get "companyHandle" record = obj_get "handle" company
    /\ ("companyHandle" ∈ job.*1 -> record.*1 = job.*1)
    /\ ("companyHandle" ∈ job.*1 ->
        obj_get "handle" company = obj_get "companyHandle" job ->
        record = job).
Proof.
  intros He1 He2. eexists. split; [|split; [|split; [|split]]].
  - by rewrite (job_get_run id w job others (company :: rest) s1 s2 He1 He2).
  - intros k Hk. by apply obj_get_set_ne.
  - apply obj_get_set.
  - intros Hin. rewrite obj_set_keys. by rewrite bool_decide_eq_true_2.
  - intros Hin ->. by apply obj_set_get_same.
Qed.

End GetResults.

Lemma company_get_keeps_columns_witness :
  exists record,
    (Company.get (JStr "c3")
       (World [inr [[("handle", JStr "c3"); ("name", JStr "C3")]]; inr []] [])).1
    = inr record
    /\ obj_get "name" record = JStr "C3"
    /\ obj_get "jobs" record = JArr []
    /\ record = [("handle", JStr "c3"); ("name", JStr "C3"); ("jobs", JArr [])].
Proof.
  destruct (company_get_keeps_columns (JStr "c3")
              (World [inr [[("handle", JStr "c3"); ("name", JStr "C3")]]; inr []] [])
              [("handle", JStr "c3"); ("name", JStr "C3")] [] [] [inr []] []
              eq_refl eq_refl) as (record & Hrun & Hcols & Hjobs & Hlast).
  exists record. split; [exact Hrun|]. split; [|split; [exact Hjobs|]].
  - rewrite Hcols; [reflexivity | discriminate].
  - apply Hlast. vm_compute. intros Hin.
    repeat (apply elem_of_cons in Hin as [Hin | Hin]; [discriminate|]).
    by apply elem_of_nil in Hin.
Defined.

Lemma job_get_keeps_row_witness :
  exists record,
    (Job.get (JNum 1)
       (World [inr [[("id", JNum 1); ("title", JStr "j0");
                     ("companyHandle", JStr "c1")]];
               inr [[("handle", JStr "c1"); ("name", JStr "C1")]]] [])).1
    = inr record
    /\ record = [("id", JNum 1); ("title", JStr "j0"); ("companyHandle", JStr "c1")].
Proof.
  destruct (job_get_keeps_row (JNum 1)
              (World [inr [[("id", JNum 1); ("title", JStr "j0");
                            ("companyHandle", JStr "c1")]];
                      inr [[("handle", JStr "c1"); ("name", JStr "C1")]]] [])
              [("id", JNum 1); ("title", JStr "j0"); ("companyHandle", JStr "c1")]
              [("handle", JStr "c1"); ("name", JStr "C1")] [] []
              [inr [[("handle", JStr "c1"); ("name", JStr "C1")]]] []
              eq_refl eq_refl) as (record & Hrun & _ & _ & _ & Hsame).
  exists record. split; [exact Hrun|].
  apply Hsame; [|reflexivity].
  apply elem_of_cons. right. apply elem_of_cons. right. apply elem_of_cons. by left.
Defined.

(** ** Values and statements *)

(** X14. The values of an update, and the identifier, go to the
    parameter list only: two updates whose data have the same keys send the
    same statement text, whatever the values and the identifiers are. *)
Theorem update_values_stay_out_of_sql {DB} `{Storage DB} (w : world DB)
    (id id' : jsval) (data data' : row) :
  data.*1 = data'.*1 ->
  (queries (Job.update id data w).2).*1 = (queries (Job.update id' data' w).2).*1
  /\ (queries (Company.update id data w).2).*1
     = (queries (Company.update id' data' w).2).*1.
Proof.
  intros Hkeys.
  assert (Hlen : length data = length data').
  { by rewrite <- (length_fmap fst data), Hkeys, length_fmap. }
  assert (Hcols : forall m, cols data m = cols data' m).
  { intros m. unfold cols. by rewrite Hkeys. }
  destruct data as [|p data], data' as [|p' data']; try discriminate;
    [split; reflexivity|].
  split.
  - unfold Job.update.
    rewrite !sqlForPartialUpdate_nonempty by discriminate.
    cbv beta iota zeta. cbn [setCols values].
    rewrite (Hcols ∅), !length_fmap, Hlen.
    run_operation; by rewrite !fmap_app.
  - unfold Company.update.
    rewrite !sqlForPartialUpdate_nonempty by discriminate.
    cbv beta iota zeta. cbn [setCols values].
    rewrite (Hcols Company.jsToSql), !length_fmap, Hlen.
    run_operation; by rewrite !fmap_app.
Qed.

Lemma update_values_stay_out_of_sql_witness :
  (queries (Job.update (JNum 1) [("title", JStr "New")]
              (World [inr [[("id", JNum 1)]]] [])).2).*1
  = (queries (Job.update (JNum 2) [("title", JStr "'; DROP TABLE jobs; --")]
                (World [inr [[("id", JNum 1)]]] [])).2).*1.
Proof.
  apply (proj1 (update_values_stay_out_of_sql
                  (World [inr [[("id", JNum 1)]]] []) (JNum 1) (JNum 2)
                  [("title", JStr "New")]
                  [("title", JStr "'; DROP TABLE jobs; --")] eq_refl)).
Defined.

(** X15. [hasEquity] is only tested for truthiness: any truthy value,
    the boolean [true], a non-zero number or a non-empty string such as
    ["false"], switches the predicate on exactly as [true] does. *)
Theorem hasEquity_is_truthiness (text : option string) (lower : option Z)
    (flag : jsval) :
  truthy flag = true ->
  Job.filter_clause (Job.Filters text lower flag)
  = Job.filter_clause (Job.Filters text lower (JBool true))
  /\ ends_with "equity > 0" (Job.filter_clause (Job.Filters text lower flag)).1
     = true.
Proof.
  intros Hflag. unfold Job.filter_clause. simpl. rewrite Hflag.
  split; [reflexivity|].
  unfold js_opt.
  destruct text as [[|? ?]|]; destruct lower as [[|?|?]|]; reflexivity.
Qed.

Lemma hasEquity_is_truthiness_witness :
  Job.filter_clause (Job.Filters None None (JStr "false"))
  = ("WHERE equity > 0", []).
Proof.
  rewrite (proj1 (hasEquity_is_truthiness None None (JStr "false") eq_refl)).
  reflexivity.
Defined.
